(** * A shallow embedding of ink!'s bump allocator
    (crates/allocator/src/bump.rs).

    A [usize] is a [Z] in [[0, usize_max]], where [usize_max] is
    [2^usize_bits - 1].  The width is a section variable: the test build runs
    on a 64-bit host, the contract build on [wasm32].  The checked operations
    of [usize] ([checked_add], [checked_mul], [checked_div]) return [None]
    exactly where Rust's do; the wrapping ones reduce modulo [2^usize_bits]. *)

From Stdlib Require Import ZArith Lia List Bool.
Import ListNotations.
Open Scope Z_scope.

Section Bump.

Variable usize_bits : Z.

Definition usize_max : Z := 2 ^ usize_bits - 1.

(** ** [usize] arithmetic *)

Definition checked_add (a b : Z) : option Z :=
  if a + b <=? usize_max then Some (a + b) else None.

Definition checked_mul (a b : Z) : option Z :=
  if a * b <=? usize_max then Some (a * b) else None.

Definition checked_div (a b : Z) : option Z :=
  if b =? 0 then None else Some (a / b).

Definition wrapping_add (a b : Z) : Z := (a + b) mod 2 ^ usize_bits.

Definition wrapping_sub (a b : Z) : Z := (a - b) mod 2 ^ usize_bits.

(** [!x] on a [usize]. *)
Definition not_usize (x : Z) : Z := Z.lxor x usize_max.

(** ** [core::alloc::Layout] *)

Record Layout := mk_layout { size : Z; align : Z }.

(** [Layout::padding_needed_for], as in [core]. *)
Definition padding_needed_for (l : Layout) (a : Z) : Z :=
  let len := size l in
  let len_rounded_up :=
    Z.land (wrapping_sub (wrapping_add len a) 1) (not_usize (wrapping_sub a 1)) in
  wrapping_sub len_rounded_up len.

(** [layout.pad_to_align().size()]. *)
Definition pad_to_align_size (l : Layout) : Z :=
  size l + padding_needed_for l (align l).

(** ** The allocator *)

(** A page in Wasm is 64KiB. *)
Definition PAGE_SIZE : Z := 64 * 1024.

Record InnerAlloc := mk_inner {
  next : Z;          (** start of the next available allocation *)
  upper_limit : Z    (** the upper limit of the heap *)
}.

(** [InnerAlloc::new]. *)
Definition new : InnerAlloc := {| next := 0; upper_limit := 0 |}.

(** [required_pages]. *)
Definition required_pages (size : Z) : option Z :=
  match checked_add size (PAGE_SIZE - 1) with
  | Some num => checked_div num PAGE_SIZE
  | None => None
  end.

(** A page source: [InnerAlloc::request_pages], which takes [&mut self]
    and a number of pages and returns the start of the granted pages. *)
Definition PageSource := InnerAlloc -> Z -> option Z.

(** The [cfg(test)] implementation of [request_pages]. *)
Definition request_pages_test : PageSource :=
  fun self _pages => Some (upper_limit self).

(** The [wasm32] implementation of [request_pages].  [memory_grow] is
    [core::arch::wasm32::memory_grow] for this call: from a memory index and a
    page count it returns the previous size of the memory in pages, or
    [usize::MAX] when the memory cannot grow. *)
Definition request_pages_wasm (memory_grow : Z -> Z -> Z) : PageSource :=
  fun _self pages =>
    let prev_page := memory_grow 0 pages in
    if prev_page =? usize_max then None else checked_mul prev_page PAGE_SIZE.

Section Alloc.

Variable request_pages : PageSource.

(** [InnerAlloc::alloc]: the result and the state after the call.  Each [?]
    returns [None] with the state as mutated so far. *)
Definition alloc (layout : Layout) (self : InnerAlloc) : option Z * InnerAlloc :=
  let alloc_start := next self in
  let aligned_size := pad_to_align_size layout in
  match checked_add alloc_start aligned_size with
  | None => (None, self)
  | Some alloc_end =>
      if upper_limit self <? alloc_end then
        match required_pages aligned_size with
        | None => (None, self)
        | Some rp =>
            match request_pages self rp with
            | None => (None, self)
            | Some page_start =>
                match match checked_mul rp PAGE_SIZE with
                      | Some pages => checked_add page_start pages
                      | None => None
                      end with
                | None => (None, self)
                | Some ul =>
                    let self := {| next := next self; upper_limit := ul |} in
                    match checked_add page_start aligned_size with
                    | None => (None, self)
                    | Some nx =>
                        (Some page_start, {| next := nx; upper_limit := upper_limit self |})
                    end
                end
            end
        end
      else (Some alloc_start, {| next := alloc_end; upper_limit := upper_limit self |})
  end.

(** ** [GlobalAlloc for BumpAllocator], acting on the static [INNER] *)

(** Raw pointers as addresses; [core::ptr::null_mut()] is [0]. *)
Definition null_mut : Z := 0.

Definition BumpAllocator_alloc (layout : Layout) (inner : InnerAlloc) : Z * InnerAlloc :=
  match alloc layout inner with
  | (Some start, inner') => (start, inner')
  | (None, inner') => (null_mut, inner')
  end.

Definition BumpAllocator_alloc_zeroed (layout : Layout) (inner : InnerAlloc) : Z * InnerAlloc :=
  BumpAllocator_alloc layout inner.

Definition BumpAllocator_dealloc (_ptr : Z) (_layout : Layout) (inner : InnerAlloc) : InnerAlloc :=
  inner.

(** A caller issuing [alloc] calls one after another on the same state:
    the result of every call, in order, and the final state. *)
Fixpoint run (ls : list Layout) (self : InnerAlloc) : list (option Z) * InnerAlloc :=
  match ls with
  | [] => ([], self)
  | l :: ls' =>
      let (r, self') := alloc l self in
      let (rs, self'') := run ls' self' in
      (r :: rs, self'')
  end.

End Alloc.

End Bump.

(** Small layouts used below. *)
Definition layout_unit : Layout := mk_layout 0 1.
Definition layout_u8 : Layout := mk_layout 1 1.
Definition layout_u16 : Layout := mk_layout 2 2.

(** Upper bound on the heap a sequence of requests can make [alloc] grant:
    the whole pages each padded size rounds up to. *)
Definition pages_bound (w : Z) (ls : list Layout) : Z :=
  fold_right (fun l acc => (pad_to_align_size w l + (PAGE_SIZE - 1)) / PAGE_SIZE * PAGE_SIZE + acc)
    0 ls.

(** Total padded size of the requests that succeeded, from the results of
    [run] in order. *)
Fixpoint granted_total (w : Z) (rs : list (option Z)) (ls : list Layout) : Z :=
  match rs, ls with
  | Some _ :: rs', l :: ls' => pad_to_align_size w l + granted_total w rs' ls'
  | None :: rs', _ :: ls' => granted_total w rs' ls'
  | _, _ => 0
  end.

(** The start addresses a sequence of requests gets when each one is placed
    right after the previous one, from address [a]. *)
Fixpoint packed_starts (w : Z) (a : Z) (ls : list Layout) : list (option Z) :=
  match ls with
  | [] => []
  | l :: ls' => Some a :: packed_starts w (a + pad_to_align_size w l) ls'
  end.

(** Sum of the padded sizes of a sequence of requests. *)
Definition padded_total (w : Z) (ls : list Layout) : Z :=
  fold_right (fun l acc => pad_to_align_size w l + acc) 0 ls.

(** A page source that always grants at the top of the address space. *)
Definition request_pages_top (w : Z) : PageSource := fun _ _ => Some (usize_max w).


Example pad_u16 : pad_to_align_size 64 layout_u16 = 2.
Proof. reflexivity. Qed.
Example pad_odd : pad_to_align_size 64 (mk_layout 13 8) = 16.
Proof. reflexivity. Qed.
Example scenario_b :
  run 64 (request_pages_test) [mk_layout 65535 1; layout_u16] (new)
  = ([Some 0; Some 65536], mk_inner 65538 131072).
Proof. reflexivity. Qed.
Example scenario_a :
  alloc 64 request_pages_test layout_unit new = (Some 0, new).
Proof. reflexivity. Qed.

(** ** Proof support *)

(** Closes a comparison or an equation between closed values. *)
Ltac ground_z := vm_compute; first [reflexivity | discriminate].


Ltac alloc_cases :=
  unfold alloc, checked_add, checked_mul in *;
  repeat match goal with
  | |- context [if ?a <=? ?b then _ else _] => destruct (Z.leb_spec a b)
  | |- context [if ?a <? ?b then _ else _] => destruct (Z.ltb_spec a b)
  | |- context [if ?a =? ?b then _ else _] => destruct (Z.eqb_spec a b)
  | |- context [match required_pages ?w ?p with Some _ => _ | None => _ end] =>
      let E := fresh "Ereq" in destruct (required_pages w p) eqn:E
  | |- context [match ?rp ?s ?n with Some _ => _ | None => _ end] =>
      let E := fresh "Erp" in destruct (rp s n) eqn:E
  end; cbn [fst snd next upper_limit] in *.

Lemma PAGE_SIZE_pos : 0 < PAGE_SIZE.
Proof. unfold PAGE_SIZE; lia. Qed.

Lemma pow_usize_pos (w : Z) : 0 <= w -> 0 < 2 ^ w.
Proof. intros; apply Z.pow_pos_nonneg; lia. Qed.

Lemma usize_max_nonneg (w : Z) : 0 <= w -> 0 <= usize_max w.
Proof. intros H; unfold usize_max; pose proof (pow_usize_pos w H); lia. Qed.

Lemma padding_nonneg (w : Z) (l : Layout) (a : Z) :
  0 <= w -> 0 <= padding_needed_for w l a.
Proof.
  intros Hw. unfold padding_needed_for, wrapping_sub.
  apply Z.mod_pos_bound, pow_usize_pos, Hw.
Qed.

Lemma pad_nonneg (w : Z) (l : Layout) :
  0 <= w -> 0 <= size l -> 0 <= pad_to_align_size w l.
Proof.
  intros Hw Hs. unfold pad_to_align_size.
  pose proof (padding_nonneg w l (align l) Hw); lia.
Qed.

Lemma pad_unit (w : Z) : pad_to_align_size w layout_unit = 0.
Proof.
  unfold pad_to_align_size, padding_needed_for, wrapping_add, wrapping_sub; cbn [size align].
  rewrite Zminus_mod_idemp_l, Z.add_0_l, Z.sub_diag, Zmod_0_l; reflexivity.
Qed.

(** [required_pages] in closed form. *)
Lemma required_pages_eq (w n : Z) :
  required_pages w n =
  if n + (PAGE_SIZE - 1) <=? usize_max w then Some ((n + (PAGE_SIZE - 1)) / PAGE_SIZE)
  else None.
Proof. unfold required_pages, checked_add, checked_div; now destruct (_ <=? _). Qed.

(** The pages [required_pages] asks for cover the size. *)
Lemma required_pages_cover (w n q : Z) :
  required_pages w n = Some q -> n <= q * PAGE_SIZE /\ (q - 1) * PAGE_SIZE < n.
Proof.
  rewrite required_pages_eq. destruct (_ <=? _); [|discriminate].
  intros H; injection H as <-.
  change PAGE_SIZE with 65536 in *; cbn [Z.sub] in *.
  pose proof (Z.div_mod (n + 65535) 65536 ltac:(discriminate)).
  pose proof (Z.mod_pos_bound (n + 65535) 65536 ltac:(lia)).
  lia.
Qed.

Lemma checked_add_some (w a b : Z) : a + b <= usize_max w -> checked_add w a b = Some (a + b).
Proof. intros H; unfold checked_add; destruct (Z.leb_spec (a + b) (usize_max w)); [reflexivity | lia]. Qed.

Lemma checked_add_none (w a b : Z) : usize_max w < a + b -> checked_add w a b = None.
Proof. intros H; unfold checked_add; destruct (Z.leb_spec (a + b) (usize_max w)); [lia | reflexivity]. Qed.

Lemma checked_mul_some (w a b : Z) : a * b <= usize_max w -> checked_mul w a b = Some (a * b).
Proof. intros H; unfold checked_mul; destruct (Z.leb_spec (a * b) (usize_max w)); [reflexivity | lia]. Qed.

Lemma checked_mul_none (w a b : Z) : usize_max w < a * b -> checked_mul w a b = None.
Proof. intros H; unfold checked_mul; destruct (Z.leb_spec (a * b) (usize_max w)); [lia | reflexivity]. Qed.

(** ** C1: the zero-byte request from the fresh state *)

(** C1 (as stated, refuted): from the fresh state, a 0-byte, 1-aligned
    request does not raise [upper_limit] to 65536: the end address 0 is not
    above [upper_limit = 0], so no page is requested. *)
Lemma alloc_unit_fresh_counterexample :
  alloc 64 request_pages_test layout_unit new <> (Some 0, mk_inner 0 65536).
Proof. vm_compute. discriminate. Qed.

(** C1 (amended): for every width and every page source, the 0-byte, 1-aligned
    request on the fresh state returns start address 0 and leaves the state
    unchanged ([next = 0], [upper_limit = 0]). *)
Theorem alloc_unit_fresh (w : Z) (rp : PageSource) :
  0 <= w -> alloc w rp layout_unit new = (Some 0, new).
Proof.
  intros Hw. unfold alloc. rewrite pad_unit. cbn [next upper_limit new].
  unfold checked_add. pose proof (usize_max_nonneg w Hw).
  destruct (Z.leb_spec (0 + 0) (usize_max w)); [|lia]. reflexivity.
Qed.

Lemma alloc_unit_fresh_witness :
  0 <= 64 /\ alloc 64 request_pages_test layout_unit new = (Some 0, new).
Proof. split; [lia | apply (alloc_unit_fresh 64 request_pages_test); lia]. Defined.

(** ** C5: [required_pages] *)

(** C5: when [size + 65535] fits in a [usize], [required_pages size] is the
    ceiling of [size / 65536] (the least [q] with [size <= q * 65536]); in
    particular it maps 0, 65536 and 65537 to 0, 1 and 2 on every width of at
    least 18 bits; when [size + 65535] overflows it fails. *)
Theorem required_pages_ceil (w : Z) :
  (forall size, size + (PAGE_SIZE - 1) <= usize_max w ->
     exists q, required_pages w size = Some q /\
               (q - 1) * PAGE_SIZE < size <= q * PAGE_SIZE) /\
  (forall size, usize_max w < size + (PAGE_SIZE - 1) -> required_pages w size = None) /\
  (18 <= w ->
     required_pages w 0 = Some 0 /\ required_pages w 65536 = Some 1 /\
     required_pages w 65537 = Some 2).
Proof.
  split; [|split].
  - intros size Hs. destruct (required_pages w size) as [q|] eqn:E.
    + exists q. split; [reflexivity|]. apply required_pages_cover in E; lia.
    + rewrite required_pages_eq in E. destruct (Z.leb_spec (size + (PAGE_SIZE - 1)) (usize_max w)); [discriminate|lia].
  - intros size Hs. rewrite required_pages_eq.
    destruct (Z.leb_spec (size + (PAGE_SIZE - 1)) (usize_max w)); [lia|reflexivity].
  - intros Hw. assert (2 ^ 18 <= 2 ^ w) by (apply Z.pow_le_mono_r; lia).
    rewrite !required_pages_eq. unfold usize_max.
    change PAGE_SIZE with 65536. change (2 ^ 18) with 262144 in *.
    repeat split;
      match goal with |- context [if ?a <=? ?b then _ else _] =>
        destruct (Z.leb_spec a b); [reflexivity | lia] end.
Qed.

Lemma required_pages_ceil_witness :
  (exists q, required_pages 64 65537 = Some q /\ (q - 1) * PAGE_SIZE < 65537 <= q * PAGE_SIZE) /\
  required_pages 64 (usize_max 64) = None /\
  required_pages 32 65536 = Some 1.
Proof.
  destruct (required_pages_ceil 64) as [H1 [H2 _]].
  destruct (required_pages_ceil 32) as [_ [_ H3]].
  split; [apply H1; vm_compute; discriminate|].
  split; [apply H2; vm_compute; reflexivity|].
  apply H3; lia.
Defined.

(** ** C4: a request that fits the headroom *)

(** C4: when [next <= upper_limit <= usize_max] and the padded size is at
    most [upper_limit - next], [alloc] returns the old [next], advances [next]
    by exactly the padded size and keeps [upper_limit]; the result is the
    same for every page source, so [request_pages] is not consulted. *)
Theorem alloc_fits (w : Z) (rp : PageSource) (l : Layout) (s : InnerAlloc) :
  next s <= upper_limit s -> upper_limit s <= usize_max w ->
  pad_to_align_size w l <= upper_limit s - next s ->
  alloc w rp l s =
  (Some (next s), mk_inner (next s + pad_to_align_size w l) (upper_limit s)).
Proof.
  intros H1 H2 H3. unfold alloc, checked_add.
  destruct (Z.leb_spec (next s + pad_to_align_size w l) (usize_max w)); [|lia].
  destruct (Z.ltb_spec (upper_limit s) (next s + pad_to_align_size w l)); [lia|].
  reflexivity.
Qed.

Lemma alloc_fits_witness :
  alloc 64 (fun _ _ => None) layout_u16 (mk_inner 10 65536) =
  (Some 10, mk_inner 12 65536).
Proof.
  apply (alloc_fits 64 (fun _ _ => None) layout_u16 (mk_inner 10 65536));
    cbn [next upper_limit]; [lia | vm_compute; discriminate | vm_compute; discriminate].
Defined.

(** ** C2: a request that does not fit the headroom *)

(** C2 (as stated, refuted): a request that does not fit may start at the old
    [next].  From the fresh state, one byte does not fit [upper_limit = 0],
    and the start address returned is 0, the old [next]. *)
Lemma alloc_grow_old_next_counterexample :
  upper_limit new < next new + pad_to_align_size 64 layout_u8 /\
  alloc 64 request_pages_test layout_u8 new = (Some (next new), mk_inner 1 65536).
Proof. split; vm_compute; reflexivity. Qed.

(** C2 (amended): with the test page source, which grants pages at the current
    [upper_limit], a successful call whose padded size does not fit returns the
    base of the granted run, the old [upper_limit] (equal to the old [next]
    when [next = upper_limit]); [upper_limit] grows by exactly
    [required_pages * PAGE_SIZE] and [next] is the start plus the padded size. *)
Theorem alloc_grow (w : Z) (l : Layout) (s s' : InnerAlloc) (a : Z) :
  upper_limit s < next s + pad_to_align_size w l ->
  alloc w request_pages_test l s = (Some a, s') ->
  a = upper_limit s /\
  exists n, required_pages w (pad_to_align_size w l) = Some n /\
            upper_limit s' = upper_limit s + n * PAGE_SIZE /\
            next s' = a + pad_to_align_size w l.
Proof.
  intros Hgt Ha. unfold alloc in Ha.
  destruct (checked_add w (next s) (pad_to_align_size w l)) as [e|] eqn:E1; [|discriminate].
  unfold checked_add in E1.
  destruct (Z.leb_spec (next s + pad_to_align_size w l) (usize_max w)); [|discriminate].
  injection E1 as <-.
  destruct (Z.ltb_spec (upper_limit s) (next s + pad_to_align_size w l)); [|lia].
  destruct (required_pages w (pad_to_align_size w l)) as [n|] eqn:E2; [|discriminate].
  unfold request_pages_test in Ha. unfold checked_mul, checked_add in Ha.
  destruct (Z.leb_spec (n * PAGE_SIZE) (usize_max w)); [|discriminate].
  destruct (Z.leb_spec (upper_limit s + n * PAGE_SIZE) (usize_max w)); [|discriminate].
  destruct (Z.leb_spec (upper_limit s + pad_to_align_size w l) (usize_max w)); [|discriminate].
  injection Ha as <- <-. split; [reflexivity|]. exists n. cbn. auto.
Qed.

Lemma alloc_grow_witness :
  upper_limit (mk_inner 65535 65536) < next (mk_inner 65535 65536) + pad_to_align_size 64 layout_u16 /\
  alloc 64 request_pages_test layout_u16 (mk_inner 65535 65536) = (Some 65536, mk_inner 65538 131072) /\
  65536 = upper_limit (mk_inner 65535 65536).
Proof.
  split; [vm_compute; reflexivity|]. split; [vm_compute; reflexivity|].
  apply (alloc_grow 64 layout_u16 (mk_inner 65535 65536) (mk_inner 65538 131072) 65536);
    vm_compute; reflexivity.
Defined.

(** ** C8: no failure after [upper_limit] is written *)

(** C8: in the page-growth branch, once [page_start + required_pages *
    PAGE_SIZE] is computed without overflow, [page_start + padded_size] cannot
    overflow, as the padded size is at most [required_pages * PAGE_SIZE];
    hence, for every page source, a call of [alloc] that fails leaves the state
    exactly as it was (it never fails after writing [upper_limit]). *)
Theorem alloc_failure_atomic (w : Z) :
  (forall p n ps pages ul,
     required_pages w p = Some n -> checked_mul w n PAGE_SIZE = Some pages ->
     checked_add w ps pages = Some ul -> exists nx, checked_add w ps p = Some nx) /\
  (forall rp l s, fst (alloc w rp l s) = None -> snd (alloc w rp l s) = s).
Proof.
  split.
  - intros p n ps pages ul Hn Hm Ha. apply required_pages_cover in Hn.
    unfold checked_mul, checked_add in *.
    destruct (Z.leb_spec (n * PAGE_SIZE) (usize_max w)); [|discriminate].
    injection Hm as <-.
    destruct (Z.leb_spec (ps + n * PAGE_SIZE) (usize_max w)); [|discriminate].
    destruct (Z.leb_spec (ps + p) (usize_max w)); [eauto | lia].
  - intros rp l s. alloc_cases; try reflexivity; try discriminate.
    apply required_pages_cover in Ereq. lia.
Qed.

Lemma alloc_failure_atomic_witness :
  (exists nx, checked_add 64 (2 ^ 63) 65537 = Some nx) /\
  snd (alloc 64 request_pages_test layout_u8 (mk_inner (usize_max 64) (usize_max 64)))
  = mk_inner (usize_max 64) (usize_max 64).
Proof.
  destruct (alloc_failure_atomic 64) as [H1 H2]. split.
  - apply (H1 65537 2 (2 ^ 63) (2 * PAGE_SIZE) (2 ^ 63 + 2 * PAGE_SIZE));
      vm_compute; reflexivity.
  - apply H2. vm_compute. reflexivity.
Defined.

(** ** C6: overflow is failure *)

(** C6: for every page source, [alloc] fails, leaving the state unchanged,
    when the end address [next + padded_size] overflows, when the
    page-rounding [padded_size + 65535] in [required_pages] overflows, when
    [required_pages * PAGE_SIZE] or [page_start + required_pages * PAGE_SIZE]
    overflows, and when [page_start + padded_size] overflows; a successful
    call never returns a wrapped address: the start plus the padded size is
    the new [next] and fits in a [usize]. *)
Theorem alloc_overflow_fails (w : Z) (rp : PageSource) (l : Layout) (s : InnerAlloc) :
  let p := pad_to_align_size w l in
  (usize_max w < next s + p -> alloc w rp l s = (None, s)) /\
  (next s + p <= usize_max w -> upper_limit s < next s + p ->
     usize_max w < p + (PAGE_SIZE - 1) -> alloc w rp l s = (None, s)) /\
  (forall n ps, next s + p <= usize_max w -> upper_limit s < next s + p ->
     required_pages w p = Some n -> rp s n = Some ps ->
     usize_max w < n * PAGE_SIZE \/ usize_max w < ps + n * PAGE_SIZE ->
     alloc w rp l s = (None, s)) /\
  (forall n ps, next s + p <= usize_max w -> upper_limit s < next s + p ->
     required_pages w p = Some n -> rp s n = Some ps ->
     usize_max w < ps + p -> alloc w rp l s = (None, s)) /\
  (forall a s', alloc w rp l s = (Some a, s') -> a + p = next s' /\ a + p <= usize_max w).
Proof.
  intros p. subst p.
  assert (Hreq : forall q, usize_max w < q + (PAGE_SIZE - 1) -> required_pages w q = None)
    by (intros q Hq; rewrite required_pages_eq;
        destruct (Z.leb_spec (q + (PAGE_SIZE - 1)) (usize_max w)); [lia | reflexivity]).
  assert (Hgrow : forall n ps, next s + pad_to_align_size w l <= usize_max w ->
     upper_limit s < next s + pad_to_align_size w l ->
     required_pages w (pad_to_align_size w l) = Some n -> rp s n = Some ps ->
     usize_max w < n * PAGE_SIZE \/ usize_max w < ps + n * PAGE_SIZE ->
     alloc w rp l s = (None, s)).
  { intros n ps H1 H2 Hn Hps H3. unfold alloc.
    rewrite checked_add_some, (proj2 (Z.ltb_lt _ _) H2), Hn, Hps by exact H1.
    destruct (Z.leb_spec (n * PAGE_SIZE) (usize_max w)).
    - rewrite checked_mul_some, checked_add_none by lia. reflexivity.
    - rewrite checked_mul_none by lia. reflexivity. }
  split; [|split; [|split; [|split]]].
  - intros H. unfold alloc. rewrite checked_add_none by exact H. reflexivity.
  - intros H1 H2 H3. unfold alloc.
    rewrite checked_add_some, (proj2 (Z.ltb_lt _ _) H2), (Hreq _ H3) by exact H1.
    reflexivity.
  - exact Hgrow.
  - intros n ps H1 H2 Hn Hps H3. apply (Hgrow n ps); auto.
    apply required_pages_cover in Hn. lia.
  - intros a s'. alloc_cases; intros Hres; try discriminate; injection Hres as <- <-; cbn; lia.
Qed.

Lemma alloc_overflow_fails_witness :
  alloc 64 request_pages_test layout_u8 (mk_inner (usize_max 64) (usize_max 64))
    = (None, mk_inner (usize_max 64) (usize_max 64)) /\
  alloc 64 request_pages_test (mk_layout (usize_max 64) 1) new = (None, new) /\
  alloc 64 request_pages_test layout_u8 (mk_inner (usize_max 64 - 10) (usize_max 64 - 10))
    = (None, mk_inner (usize_max 64 - 10) (usize_max 64 - 10)) /\
  alloc 64 (request_pages_top 64) layout_u8 new = (None, new) /\
  (0 + pad_to_align_size 64 layout_u8 = next (mk_inner 1 65536) /\
   0 + pad_to_align_size 64 layout_u8 <= usize_max 64).
Proof.
  split; [|split; [|split; [|split]]].
  - destruct (alloc_overflow_fails 64 request_pages_test layout_u8
                (mk_inner (usize_max 64) (usize_max 64))) as [H _].
    apply H. ground_z.
  - destruct (alloc_overflow_fails 64 request_pages_test (mk_layout (usize_max 64) 1) new)
      as [_ [H _]].
    apply H; ground_z.
  - destruct (alloc_overflow_fails 64 request_pages_test layout_u8
                (mk_inner (usize_max 64 - 10) (usize_max 64 - 10))) as [_ [_ [H _]]].
    apply (H 1 (usize_max 64 - 10)); try (ground_z).
    right; ground_z.
  - destruct (alloc_overflow_fails 64 (request_pages_top 64) layout_u8 new)
      as [_ [_ [_ [H _]]]].
    apply (H 1 (usize_max 64)); ground_z.
  - destruct (alloc_overflow_fails 64 request_pages_test layout_u8 new)
      as [_ [_ [_ [_ H]]]].
    apply H. ground_z.
Defined.

(** ** One call with the test page source *)

Lemma alloc_test_step (w : Z) (l : Layout) (s s' : InnerAlloc) (r : option Z) :
  0 <= w -> 0 <= size l -> next s <= upper_limit s ->
  alloc w request_pages_test l s = (r, s') ->
  next s <= next s' /\ next s' <= upper_limit s' /\ upper_limit s <= upper_limit s' /\
  (exists k, 0 <= k /\ upper_limit s' = upper_limit s + k * PAGE_SIZE) /\
  (forall a, r = Some a -> next s <= a /\ a + pad_to_align_size w l = next s').
Proof.
  intros Hw Hs Hle. pose proof (pad_nonneg w l Hw Hs) as Hp.
  unfold request_pages_test. alloc_cases; intros Hres; injection Hres as <- <-; cbn [next upper_limit].
  all: try (match goal with E : required_pages _ _ = Some _ |- _ =>
              apply required_pages_cover in E end).
  all: change PAGE_SIZE with 65536 in *.
  all: split; [lia|]; split; [lia|]; split; [lia|]; split;
       [ first [ exists 0; lia | eexists; split; [ | reflexivity ]; lia ]
       | intros a Ha; first [ discriminate | injection Ha as <-; split; lia ] ].
Qed.

(** ** C7: the state invariants *)

(** C7: with the test page source, every call of [alloc] on a state with
    [next <= upper_limit] (which the fresh state [next = upper_limit = 0]
    satisfies) and a layout of non-negative size, whether it succeeds or
    fails, yields a state with [next <= upper_limit]; [next] does not
    decrease, and [upper_limit] does not decrease and moves by a whole number
    of pages. *)
Theorem alloc_invariants (w : Z) (l : Layout) (s : InnerAlloc) :
  0 <= w -> 0 <= size l -> next s <= upper_limit s ->
  let s' := snd (alloc w request_pages_test l s) in
  next new <= upper_limit new /\
  next s' <= upper_limit s' /\ next s <= next s' /\ upper_limit s <= upper_limit s' /\
  exists k, 0 <= k /\ upper_limit s' = upper_limit s + k * PAGE_SIZE.
Proof.
  intros Hw Hs Hle s'. subst s'.
  destruct (alloc w request_pages_test l s) as [r s'] eqn:E. cbn [snd].
  destruct (alloc_test_step w l s s' r Hw Hs Hle E) as (H1 & H2 & H3 & H4 & _).
  cbn [next upper_limit new]. auto with zarith.
Qed.

Lemma alloc_invariants_witness :
  0 <= 64 /\ 0 <= size layout_u16 /\ next (mk_inner 65535 65536) <= upper_limit (mk_inner 65535 65536) /\
  next (mk_inner 65538 131072) <= upper_limit (mk_inner 65538 131072).
Proof.
  split; [lia|]. split; [ground_z|]. split; [ground_z|].
  pose proof (alloc_invariants 64 layout_u16 (mk_inner 65535 65536)
                ltac:(lia) ltac:(ground_z) ltac:(ground_z)) as H.
  cbv zeta in H. destruct H as (_ & H & _).
  replace (snd (alloc 64 request_pages_test layout_u16 (mk_inner 65535 65536)))
    with (mk_inner 65538 131072) in H by ground_z.
  exact H.
Defined.

(** ** C3: successive allocations do not overlap *)

Lemma run_cons (w : Z) (rp : PageSource) (l : Layout) (ls : list Layout) (s : InnerAlloc) :
  run w rp (l :: ls) s =
  (fst (alloc w rp l s) :: fst (run w rp ls (snd (alloc w rp l s))),
   snd (run w rp ls (snd (alloc w rp l s)))).
Proof.
  cbn [run]. destruct (alloc w rp l s) as [r s']. cbn [fst snd].
  destruct (run w rp ls s'). reflexivity.
Qed.

(** Every later successful allocation starts at or above the current [next]. *)
Lemma run_test_lower (w : Z) (ls : list Layout) :
  0 <= w -> Forall (fun l => 0 <= size l) ls ->
  forall s i a, next s <= upper_limit s ->
  nth_error (fst (run w request_pages_test ls s)) i = Some (Some a) -> next s <= a.
Proof.
  intros Hw Hls. induction Hls as [|l ls Hl Hls IH]; intros s i a Hle Hi.
  - destruct i; discriminate.
  - rewrite run_cons in Hi. cbn [fst] in Hi.
    destruct (alloc w request_pages_test l s) as [r s'] eqn:E. cbn [fst snd] in Hi.
    destruct (alloc_test_step w l s s' r Hw Hl Hle E) as (H1 & H2 & _ & _ & H5).
    destruct i as [|i]; cbn [nth_error] in Hi.
    + injection Hi as ->. apply H5; reflexivity.
    + specialize (IH s' i a H2 Hi). lia.
Qed.

Lemma run_test_ordered (w : Z) (ls : list Layout) :
  0 <= w -> Forall (fun l => 0 <= size l) ls ->
  forall s i j li a b, next s <= upper_limit s -> (i < j)%nat ->
  nth_error ls i = Some li ->
  nth_error (fst (run w request_pages_test ls s)) i = Some (Some a) ->
  nth_error (fst (run w request_pages_test ls s)) j = Some (Some b) ->
  a + pad_to_align_size w li <= b.
Proof.
  intros Hw Hls. induction Hls as [|l ls Hl Hls IH]; intros s i j li a b Hle Hij Hli Ha Hb.
  - destruct i; discriminate.
  - rewrite run_cons in Ha, Hb. cbn [fst] in Ha, Hb.
    destruct (alloc w request_pages_test l s) as [r s'] eqn:E. cbn [fst snd] in Ha, Hb.
    destruct (alloc_test_step w l s s' r Hw Hl Hle E) as (H1 & H2 & _ & _ & H5).
    destruct j as [|j]; [lia|]. cbn [nth_error] in Hb.
    destruct i as [|i]; cbn [nth_error] in Ha, Hli.
    + injection Ha as ->. injection Hli as <-.
      destruct (H5 a eq_refl) as [_ Heq]. rewrite Heq.
      exact (run_test_lower w ls Hw Hls s' j b H2 Hb).
    + exact (IH s' i j li a b H2 ltac:(lia) Hli Ha Hb).
Qed.

(** C3 (as stated, refuted): zero-size requests return the same start
    address, so the start addresses of successful calls are not strictly
    increasing: two unit requests from the fresh state both start at 0, and so
    do a unit request and a following one-byte request. *)
Lemma run_not_strict_counterexample :
  fst (run 64 request_pages_test [layout_unit; layout_unit] new) = [Some 0; Some 0] /\
  fst (run 64 request_pages_test [layout_unit; layout_u8] new) = [Some 0; Some 0].
Proof. split; vm_compute; reflexivity. Qed.

(** C3 (amended): for every sequence of [alloc] calls from the fresh state with
    the test page source, the interval [[start, start + padded_size)] of a
    successful call ends at or before the start of every later successful
    call; so start addresses are non-decreasing, strictly increasing after a
    call of nonzero padded size, and the intervals of distinct successful
    calls are pairwise disjoint. *)
Theorem run_disjoint (w : Z) (ls : list Layout) (i j : nat) (li lj : Layout) (a b : Z) :
  0 <= w -> Forall (fun l => 0 <= size l) ls -> (i < j)%nat ->
  nth_error ls i = Some li -> nth_error ls j = Some lj ->
  nth_error (fst (run w request_pages_test ls new)) i = Some (Some a) ->
  nth_error (fst (run w request_pages_test ls new)) j = Some (Some b) ->
  a + pad_to_align_size w li <= b /\ a <= b /\
  (0 < pad_to_align_size w li -> a < b) /\
  (forall x, ~ (a <= x < a + pad_to_align_size w li /\ b <= x < b + pad_to_align_size w lj)).
Proof.
  intros Hw Hls Hij Hli Hlj Ha Hb.
  pose proof (run_test_ordered w ls Hw Hls new i j li a b ltac:(cbn; lia) Hij Hli Ha Hb) as H.
  assert (Hpi : 0 <= pad_to_align_size w li).
  { apply pad_nonneg; [exact Hw|]. rewrite Forall_forall in Hls.
    apply Hls, (nth_error_In ls i Hli). }
  repeat split; try lia.
Qed.

Lemma run_disjoint_witness :
  0 + pad_to_align_size 64 (mk_layout 65535 1) <= 65536 /\ 0 <= 65536.
Proof.
  assert (Hf : Forall (fun l => 0 <= size l) [mk_layout 65535 1; layout_u16])
    by (repeat constructor; cbn; lia).
  destruct (run_disjoint 64 [mk_layout 65535 1; layout_u16] 0 1
              (mk_layout 65535 1) layout_u16 0 65536 ltac:(lia) Hf ltac:(lia)
              eq_refl eq_refl ltac:(ground_z) ltac:(ground_z)) as [H1 [H2 _]].
  split; [exact H1 | exact H2].
Defined.

(** ** C9: [alloc_zeroed] *)

(** C9: for every page source, layout and state, [alloc_zeroed] returns the
    same pointer and leaves the same state as [alloc]. *)
Theorem alloc_zeroed_is_alloc (w : Z) (rp : PageSource) (l : Layout) (s : InnerAlloc) :
  BumpAllocator_alloc_zeroed w rp l s = BumpAllocator_alloc w rp l s.
Proof. reflexivity. Qed.

(** ** C10: [dealloc] *)

(** C10: [dealloc] leaves [next] and [upper_limit] unchanged, so every later
    [alloc] behaves exactly as if the [dealloc] had not happened: no capacity
    is returned. *)
Theorem dealloc_noop (w : Z) (rp : PageSource) (ptr : Z) (l : Layout) (s : InnerAlloc) :
  next (BumpAllocator_dealloc ptr l s) = next s /\
  upper_limit (BumpAllocator_dealloc ptr l s) = upper_limit s /\
  forall l', alloc w rp l' (BumpAllocator_dealloc ptr l s) = alloc w rp l' s.
Proof. repeat split. Qed.

(** ** Further properties of the allocator *)

(** Clearing the low [k] bits of a [w]-bit value with [!(2^k - 1)]. *)
Lemma land_clear_low (w k x : Z) :
  0 <= k <= w -> 0 <= x < 2 ^ w ->
  Z.land x (Z.lxor (Z.ones k) (Z.ones w)) = x / 2 ^ k * 2 ^ k.
Proof.
  intros Hk Hx.
  rewrite <- Z.shiftr_div_pow2, <- Z.shiftl_mul_pow2 by lia.
  apply Z.bits_inj'; intros n Hn.
  rewrite Z.land_spec, Z.lxor_spec, !Z.testbit_ones_nonneg by lia.
  destruct (Z.ltb_spec n k).
  - rewrite Z.shiftl_spec_low by lia.
    destruct (Z.ltb_spec n w); [|lia]. cbn. apply andb_false_r.
  - rewrite Z.shiftl_spec_high, Z.shiftr_spec by lia.
    replace (n - k + k) with n by lia.
    destruct (Z.ltb_spec n w); cbn.
    + apply andb_true_r.
    + rewrite andb_false_r. symmetry.
      destruct (Z.eq_dec x 0) as [->|Hx0]; [apply Z.testbit_0_l|].
      apply Z.bits_above_log2; [lia|].
      apply Z.log2_lt_pow2; [lia|].
      assert (2 ^ w <= 2 ^ n) by (apply Z.pow_le_mono_r; lia). lia.
Qed.

(** [pad_to_align] for a power-of-two alignment below the word size and
    a size whose rounding does not wrap: the smallest multiple of the
    alignment that is at least the size. *)
Lemma pad_to_align_round (w k : Z) (l : Layout) :
  0 <= k < w -> align l = 2 ^ k -> 0 <= size l -> size l + align l - 1 <= usize_max w ->
  pad_to_align_size w l = (size l + align l - 1) / align l * align l.
Proof.
  intros Hk Ha Hs Hle.
  assert (Hkw : 2 ^ k < 2 ^ w) by (apply Z.pow_lt_mono_r; lia).
  assert (Hk0 : 0 < 2 ^ k) by (apply pow_usize_pos; lia).
  unfold pad_to_align_size, padding_needed_for, wrapping_add, wrapping_sub, not_usize.
  unfold usize_max in *. rewrite Ha in *.
  rewrite Zminus_mod_idemp_l.
  rewrite (Z.mod_small (size l + 2 ^ k - 1)) by lia.
  rewrite (Z.mod_small (2 ^ k - 1)) by lia.
  replace (2 ^ k - 1) with (Z.ones k) by (rewrite Z.ones_equiv; lia).
  replace (2 ^ w - 1) with (Z.ones w) by (rewrite Z.ones_equiv; lia).
  rewrite land_clear_low by lia.
  pose proof (Z.div_mod (size l + 2 ^ k - 1) (2 ^ k) ltac:(lia)).
  pose proof (Z.mod_pos_bound (size l + 2 ^ k - 1) (2 ^ k) Hk0).
  rewrite Z.mod_small; lia.
Qed.

Lemma required_pages_some (w n : Z) :
  n + (PAGE_SIZE - 1) <= usize_max w ->
  required_pages w n = Some ((n + (PAGE_SIZE - 1)) / PAGE_SIZE).
Proof.
  intros H. rewrite required_pages_eq.
  destruct (Z.leb_spec (n + (PAGE_SIZE - 1)) (usize_max w)); [reflexivity | lia].
Qed.

Lemma required_pages_none (w n : Z) :
  usize_max w < n + (PAGE_SIZE - 1) -> required_pages w n = None.
Proof.
  intros H. rewrite required_pages_eq.
  destruct (Z.leb_spec (n + (PAGE_SIZE - 1)) (usize_max w)); [lia | reflexivity].
Qed.

(** X1: for an alignment [2^k] with [k] below the word size and a size whose
    rounding up does not wrap, [layout.pad_to_align().size()], as [alloc]
    computes it, is the least multiple of the alignment that is at least the
    size. *)
Theorem pad_to_align_is_round_up (w k : Z) (l : Layout) :
  0 <= k < w -> align l = 2 ^ k -> 0 <= size l -> size l + align l - 1 <= usize_max w ->
  pad_to_align_size w l mod align l = 0 /\
  size l <= pad_to_align_size w l < size l + align l.
Proof.
  intros Hk Ha Hs Hle. rewrite (pad_to_align_round w k l Hk Ha Hs Hle).
  assert (Hk0 : 0 < align l) by (rewrite Ha; apply pow_usize_pos; lia).
  pose proof (Z.div_mod (size l + align l - 1) (align l) ltac:(lia)).
  pose proof (Z.mod_pos_bound (size l + align l - 1) (align l) Hk0).
  split; [apply Z.mod_mul; lia | lia].
Qed.

Lemma pad_to_align_is_round_up_witness :
  pad_to_align_size 64 (mk_layout 13 8) mod 8 = 0 /\
  13 <= pad_to_align_size 64 (mk_layout 13 8) < 13 + 8.
Proof.
  exact (pad_to_align_is_round_up 64 3 (mk_layout 13 8) ltac:(lia) eq_refl
           ltac:(cbn; lia) ltac:(ground_z)).
Defined.

(** X2: from the fresh state, with the test page source, a request whose
    padded size [p] leaves room for the page rounding ([p + 65535] fits in a
    [usize]) is granted at address 0; afterwards [next = p] and
    [upper_limit = PAGE_SIZE * required_pages p]. *)
Theorem alloc_fresh_first (w : Z) (l : Layout) :
  0 <= w -> 0 <= size l -> pad_to_align_size w l + (PAGE_SIZE - 1) <= usize_max w ->
  exists n, required_pages w (pad_to_align_size w l) = Some n /\
    alloc w request_pages_test l new =
    (Some 0, mk_inner (pad_to_align_size w l) (PAGE_SIZE * n)).
Proof.
  intros Hw Hs Hle. pose proof (pad_nonneg w l Hw Hs) as Hp.
  pose proof (required_pages_some w _ Hle) as Hreq.
  pose proof (required_pages_cover w _ _ Hreq) as Hcov.
  eexists; split; [exact Hreq|].
  change (PAGE_SIZE - 1) with 65535 in *.
  unfold request_pages_test, new. alloc_cases; try congruence;
    try (injection Hreq as ->); change PAGE_SIZE with 65536 in *; try lia.
  - f_equal. f_equal; ring.
  - assert (pad_to_align_size w l = 0) as Hz by lia.
    rewrite Hz. reflexivity.
Qed.

Lemma alloc_fresh_first_witness :
  exists n, required_pages 64 (pad_to_align_size 64 (mk_layout 100000 8)) = Some n /\
    alloc 64 request_pages_test (mk_layout 100000 8) new =
    (Some 0, mk_inner (pad_to_align_size 64 (mk_layout 100000 8)) (PAGE_SIZE * n)).
Proof.
  apply (alloc_fresh_first 64 (mk_layout 100000 8)); [lia | cbn; lia | ground_z].
Defined.

(** X3: on a word of at least 16 bits, from the fresh state, a request whose
    padded size plus the page-rounding slack 65535 overflows fails and leaves
    the state fresh, whatever the page source. *)
Theorem alloc_fresh_overflow (w : Z) (rp : PageSource) (l : Layout) :
  16 <= w -> usize_max w < pad_to_align_size w l + (PAGE_SIZE - 1) ->
  alloc w rp l new = (None, new).
Proof.
  intros Hw Hlt.
  assert (2 ^ 16 <= 2 ^ w) by (apply Z.pow_le_mono_r; lia).
  assert (PAGE_SIZE - 1 <= usize_max w)
    by (unfold usize_max; change PAGE_SIZE with (2 ^ 16); lia).
  pose proof (required_pages_none w _ Hlt) as Hreq.
  unfold new. alloc_cases; try reflexivity; try lia; congruence.
Qed.

Lemma alloc_fresh_overflow_witness :
  alloc 64 request_pages_test (mk_layout (usize_max 64 - 7) 8) new = (None, new).
Proof. apply alloc_fresh_overflow; [lia | ground_z]. Defined.

(** A page source whose grants all start on a page boundary keeps
    [upper_limit] page-aligned, and so is every start it hands out. *)
Lemma alloc_aligned_step (w : Z) (rp : PageSource) (l : Layout) (s : InnerAlloc) :
  (forall s0 n a, rp s0 n = Some a -> a mod PAGE_SIZE = 0) ->
  upper_limit s mod PAGE_SIZE = 0 ->
  upper_limit (snd (alloc w rp l s)) mod PAGE_SIZE = 0 /\
  (forall a, fst (alloc w rp l s) = Some a ->
     upper_limit s < next s + pad_to_align_size w l -> a mod PAGE_SIZE = 0).
Proof.
  intros Hrp Hs. alloc_cases;
    (split; [ | intros a Ha Hlt ]); try discriminate; try lia; try exact Hs.
  all: try (apply Hrp in Erp; rewrite Z_mod_plus_full; exact Erp).
  all: injection Ha as <-; apply (Hrp _ _ _ Erp).
Qed.

(** X4: when every grant of the page source starts on a page boundary (as
    the [wasm32] one does), [alloc] keeps a page-aligned [upper_limit]
    page-aligned, and an allocation that does not fit the headroom starts on a
    page boundary. *)
Theorem alloc_keeps_page_alignment (w : Z) (rp : PageSource) (l : Layout) (s : InnerAlloc) :
  (forall s0 n a, rp s0 n = Some a -> a mod PAGE_SIZE = 0) ->
  upper_limit s mod PAGE_SIZE = 0 ->
  upper_limit (snd (alloc w rp l s)) mod PAGE_SIZE = 0 /\
  (forall a, fst (alloc w rp l s) = Some a ->
     upper_limit s < next s + pad_to_align_size w l -> a mod PAGE_SIZE = 0).
Proof. apply alloc_aligned_step. Qed.

Lemma alloc_keeps_page_alignment_witness :
  upper_limit (snd (alloc 64 (fun _ _ => Some 131072) layout_u16 (mk_inner 65535 65536)))
    mod PAGE_SIZE = 0.
Proof.
  destruct (alloc_keeps_page_alignment 64 (fun _ _ => Some 131072) layout_u16
              (mk_inner 65535 65536)) as [H _].
  - intros s0 n a Ha. injection Ha as <-. reflexivity.
  - reflexivity.
  - exact H.
Defined.

Lemma request_pages_wasm_aligned (w : Z) (memory_grow : Z -> Z -> Z) (s0 : InnerAlloc) (n a : Z) :
  request_pages_wasm w memory_grow s0 n = Some a -> a mod PAGE_SIZE = 0.
Proof.
  unfold request_pages_wasm, checked_mul.
  destruct (Z.eqb_spec (memory_grow 0 n) (usize_max w)); [discriminate|].
  destruct (Z.leb_spec (memory_grow 0 n * PAGE_SIZE) (usize_max w)); [|discriminate].
  intros Hs; injection Hs as <-. apply Z_mod_mult.
Qed.

(** X5: with the [wasm32] page source, whatever [memory_grow] returns,
    [alloc] keeps a page-aligned [upper_limit] page-aligned and starts every
    allocation that does not fit the headroom on a page boundary; when the
    request does not fit and [memory_grow] reports failure ([usize::MAX]),
    [alloc] returns [None] and leaves the state unchanged. *)
Theorem alloc_wasm_pages (w : Z) (memory_grow : Z -> Z -> Z) (l : Layout) (s : InnerAlloc) :
  upper_limit s mod PAGE_SIZE = 0 ->
  upper_limit (snd (alloc w (request_pages_wasm w memory_grow) l s)) mod PAGE_SIZE = 0 /\
  (forall a, fst (alloc w (request_pages_wasm w memory_grow) l s) = Some a ->
     upper_limit s < next s + pad_to_align_size w l -> a mod PAGE_SIZE = 0) /\
  (forall n, upper_limit s < next s + pad_to_align_size w l ->
     required_pages w (pad_to_align_size w l) = Some n ->
     memory_grow 0 n = usize_max w ->
     alloc w (request_pages_wasm w memory_grow) l s = (None, s)).
Proof.
  intros Hs.
  destruct (alloc_aligned_step w (request_pages_wasm w memory_grow) l s
              (request_pages_wasm_aligned w memory_grow) Hs) as [H1 H2].
  split; [exact H1|]. split; [exact H2|].
  intros n Hlt Hn Hmg. unfold request_pages_wasm.
  alloc_cases; try reflexivity; try lia; congruence.
Qed.

Lemma alloc_wasm_pages_witness :
  alloc 64 (request_pages_wasm 64 (fun _ _ => usize_max 64)) layout_u16 (mk_inner 65535 65536)
  = (None, mk_inner 65535 65536).
Proof.
  destruct (alloc_wasm_pages 64 (fun _ _ => usize_max 64) layout_u16 (mk_inner 65535 65536)
              eq_refl) as (_ & _ & H).
  apply (H 1); ground_z.
Defined.

Lemma required_pages_value (w n q : Z) :
  required_pages w n = Some q -> q = (n + (PAGE_SIZE - 1)) / PAGE_SIZE.
Proof.
  rewrite required_pages_eq. destruct (_ <=? _); [|discriminate].
  intros H; injection H as <-; reflexivity.
Qed.

(** One call with the test page source grows [upper_limit] by at most the
    whole pages the padded size rounds up to. *)
Lemma alloc_test_upper_growth (w : Z) (l : Layout) (s : InnerAlloc) :
  0 <= w -> 0 <= size l ->
  upper_limit (snd (alloc w request_pages_test l s)) <=
  upper_limit s + (pad_to_align_size w l + (PAGE_SIZE - 1)) / PAGE_SIZE * PAGE_SIZE.
Proof.
  intros Hw Hs. pose proof (pad_nonneg w l Hw Hs) as Hp.
  assert (0 <= (pad_to_align_size w l + (PAGE_SIZE - 1)) / PAGE_SIZE)
    by (apply Z.div_pos; unfold PAGE_SIZE; lia).
  unfold request_pages_test. alloc_cases.
  all: try (apply required_pages_value in Ereq; subst).
  all: change PAGE_SIZE with 65536 in *; lia.
Qed.

Lemma pages_bound_cons (w : Z) (l : Layout) (ls : list Layout) :
  pages_bound w (l :: ls) =
  (pad_to_align_size w l + (PAGE_SIZE - 1)) / PAGE_SIZE * PAGE_SIZE + pages_bound w ls.
Proof. reflexivity. Qed.

(** What a whole [run] with the test page source keeps and accounts for. *)
Lemma run_test_state (w : Z) (ls : list Layout) :
  0 <= w -> Forall (fun l => 0 <= size l) ls ->
  forall s rs s', run w request_pages_test ls s = (rs, s') ->
  next s <= upper_limit s -> upper_limit s mod PAGE_SIZE = 0 ->
  next s' <= upper_limit s' /\ upper_limit s' mod PAGE_SIZE = 0 /\
  next s <= next s' /\ upper_limit s' <= upper_limit s + pages_bound w ls /\
  granted_total w rs ls <= next s' - next s.
Proof.
  intros Hw Hls. induction Hls as [|l ls Hl Hls IH]; intros s rs s' Hrun Hle Hal.
  - injection Hrun as <- <-. unfold pages_bound; cbn [fold_right granted_total]. lia.
  - rewrite run_cons in Hrun.
    pose proof (alloc_test_upper_growth w l s Hw Hl) as Hg.
    destruct (alloc w request_pages_test l s) as [r s1] eqn:E. cbn [fst snd] in Hrun, Hg.
    destruct (run w request_pages_test ls s1) as [rs1 s2] eqn:E2.
    injection Hrun as <- <-.
    destruct (alloc_test_step w l s s1 r Hw Hl Hle E) as (H1 & H2 & _ & (k & Hk & Hup) & H5).
    assert (Hal1 : upper_limit s1 mod PAGE_SIZE = 0)
      by (rewrite Hup, Z_mod_plus_full; exact Hal).
    destruct (IH s1 rs1 s2 E2 H2 Hal1) as (I1 & I2 & I3 & I4 & I5).
    rewrite pages_bound_cons.
    split; [exact I1|]. split; [exact I2|]. split; [lia|]. split; [lia|].
    destruct r as [a|]; cbn [granted_total].
    + destruct (H5 a eq_refl); lia.
    + lia.
Qed.

(** X6: after any sequence of [alloc] calls from the fresh state with the
    test page source (layouts of non-negative size), successful or not,
    [next <= upper_limit] and [upper_limit] is a whole number of pages. *)
Theorem run_fresh_invariant (w : Z) (ls : list Layout) :
  0 <= w -> Forall (fun l => 0 <= size l) ls ->
  next (snd (run w request_pages_test ls new)) <=
    upper_limit (snd (run w request_pages_test ls new)) /\
  upper_limit (snd (run w request_pages_test ls new)) mod PAGE_SIZE = 0.
Proof.
  intros Hw Hls.
  destruct (run w request_pages_test ls new) as [rs s'] eqn:E. cbn [snd].
  destruct (run_test_state w ls Hw Hls new rs s' E ltac:(cbn; lia) eq_refl)
    as (H1 & H2 & _). auto.
Qed.

Lemma run_fresh_invariant_witness :
  next (snd (run 64 request_pages_test [mk_layout 65535 1; layout_u16; layout_unit] new)) <=
    upper_limit (snd (run 64 request_pages_test [mk_layout 65535 1; layout_u16; layout_unit] new)) /\
  upper_limit (snd (run 64 request_pages_test [mk_layout 65535 1; layout_u16; layout_unit] new))
    mod PAGE_SIZE = 0.
Proof. apply run_fresh_invariant; [lia | repeat constructor; cbn; lia]. Defined.

(** X7: after any sequence of [alloc] calls from the fresh state with the
    test page source (layouts of non-negative size), the padded sizes of the
    successful calls add up to at most the final [next], and the final
    [upper_limit] is at most the sum over all requests of the whole pages each
    padded size rounds up to: the heap never grows beyond what the requests
    ask for. *)
Theorem run_fresh_accounting (w : Z) (ls : list Layout) :
  0 <= w -> Forall (fun l => 0 <= size l) ls ->
  granted_total w (fst (run w request_pages_test ls new)) ls <=
    next (snd (run w request_pages_test ls new)) /\
  upper_limit (snd (run w request_pages_test ls new)) <= pages_bound w ls.
Proof.
  intros Hw Hls.
  destruct (run w request_pages_test ls new) as [rs s'] eqn:E. cbn [fst snd].
  destruct (run_test_state w ls Hw Hls new rs s' E ltac:(cbn; lia) eq_refl)
    as (_ & _ & _ & H4 & H5).
  cbn [next upper_limit new] in H4, H5. lia.
Qed.

Lemma run_fresh_accounting_witness :
  granted_total 64 (fst (run 64 request_pages_test [mk_layout 65535 1; layout_u16] new))
    [mk_layout 65535 1; layout_u16] <=
    next (snd (run 64 request_pages_test [mk_layout 65535 1; layout_u16] new)) /\
  upper_limit (snd (run 64 request_pages_test [mk_layout 65535 1; layout_u16] new)) <=
    pages_bound 64 [mk_layout 65535 1; layout_u16].
Proof. apply run_fresh_accounting; [lia | repeat constructor; cbn; lia]. Defined.

Lemma alloc_fail_unchanged (w : Z) (rp : PageSource) (l : Layout) (s : InnerAlloc) :
  fst (alloc w rp l s) = None -> snd (alloc w rp l s) = s.
Proof.
  alloc_cases; try reflexivity; try discriminate.
  apply required_pages_cover in Ereq. lia.
Qed.

(** X8: [GlobalAlloc::alloc] of [BumpAllocator] returns the null pointer
    when [InnerAlloc::alloc] fails, and then leaves the allocator state as it
    was; when [InnerAlloc::alloc] succeeds it returns that start address with
    the state [InnerAlloc::alloc] left. *)
Theorem global_alloc_result (w : Z) (rp : PageSource) (l : Layout) (s : InnerAlloc) :
  (fst (alloc w rp l s) = None -> BumpAllocator_alloc w rp l s = (null_mut, s)) /\
  (forall a, fst (alloc w rp l s) = Some a ->
     BumpAllocator_alloc w rp l s = (a, snd (alloc w rp l s))).
Proof.
  split.
  - intros H. pose proof (alloc_fail_unchanged w rp l s H) as Hs.
    unfold BumpAllocator_alloc. destruct (alloc w rp l s) as [[a|] s'];
      cbn in H, Hs; [discriminate|]. subst. reflexivity.
  - intros a H. unfold BumpAllocator_alloc.
    destruct (alloc w rp l s) as [[a'|] s']; cbn in H; [|discriminate].
    injection H as ->. reflexivity.
Qed.

Lemma global_alloc_result_witness :
  BumpAllocator_alloc 64 request_pages_test layout_u8 (mk_inner (usize_max 64) (usize_max 64))
  = (null_mut, mk_inner (usize_max 64) (usize_max 64)).
Proof.
  destruct (global_alloc_result 64 request_pages_test layout_u8
              (mk_inner (usize_max 64) (usize_max 64))) as [H _].
  apply H. ground_z.
Defined.

Lemma alloc_fits_step (w : Z) (rp : PageSource) (l : Layout) (s : InnerAlloc) :
  next s + pad_to_align_size w l <= upper_limit s -> upper_limit s <= usize_max w ->
  alloc w rp l s =
  (Some (next s), mk_inner (next s + pad_to_align_size w l) (upper_limit s)).
Proof.
  intros H1 H2. unfold alloc. rewrite checked_add_some by lia.
  destruct (Z.ltb_spec (upper_limit s) (next s + pad_to_align_size w l)); [lia|].
  reflexivity.
Qed.

(** X9: a sequence of requests (of non-negative size) whose padded sizes add
    up to at most the headroom [upper_limit - next] is packed back to back:
    the calls return [next], [next + p1], [next + p1 + p2], ..., no page is
    requested (the result is the same for every page source), and the final
    state has [next] advanced by the total padded size and [upper_limit]
    unchanged. *)
Theorem run_packs_headroom (w : Z) (rp : PageSource) (ls : list Layout) (s : InnerAlloc) :
  0 <= w -> Forall (fun l => 0 <= size l) ls ->
  next s + padded_total w ls <= upper_limit s -> upper_limit s <= usize_max w ->
  run w rp ls s =
  (packed_starts w (next s) ls, mk_inner (next s + padded_total w ls) (upper_limit s)).
Proof.
  intros Hw Hls. revert s. induction Hls as [|l ls Hl Hls IH]; intros s Hfit Hmax.
  - cbn. destruct s; cbn. f_equal. f_equal. lia.
  - assert (Hp : 0 <= pad_to_align_size w l) by exact (pad_nonneg w l Hw Hl).
    assert (Hrest : 0 <= padded_total w ls).
    { clear IH Hfit. induction Hls as [|l' ls' Hl' Hls' IH']; cbn; [lia|].
      pose proof (pad_nonneg w l' Hw Hl'). fold (padded_total w ls'). lia. }
    unfold padded_total in Hfit |- *. cbn [fold_right] in Hfit |- *.
    fold (padded_total w ls) in Hfit |- *.
    rewrite run_cons, alloc_fits_step by lia. cbn [fst snd next upper_limit].
    rewrite IH by (cbn; lia). cbn [fst snd next upper_limit packed_starts].
    f_equal. f_equal. lia.
Qed.

Lemma run_packs_headroom_witness :
  run 64 request_pages_test [layout_u8; layout_u16; layout_unit] (mk_inner 0 65536) =
  ([Some 0; Some 1; Some 3], mk_inner 3 65536).
Proof.
  apply (run_packs_headroom 64 request_pages_test [layout_u8; layout_u16; layout_unit]
           (mk_inner 0 65536)); [lia | repeat constructor; cbn; lia | ground_z | ground_z].
Defined.
